(** * RTPReceiver: the receive-side lifecycle of one inbound stream

    A shallow embedding of [rtpreceiver.go] (package webrtc): the
    [RTPReceiver] struct, its constructor and its methods [Track], [Receive],
    [Read], [ReadRTCP], [Stop] and [readRTP], followed by the properties of
    its activation / teardown protocol.

    Conventions of the embedding.
    - A method body runs on a [Machine]: the receiver struct, the state of
      the collaborators outside this file (transport, sessions, streams) and
      the chronological trace of what the body did to them.
    - [Receive], [Stop] and [Track] hold [r.mu] for their whole body, so each
      of them is one atomic step of the receiver; [Read] and [readRTP] are
      taken as one step as well.
    - A channel of the struct is only ever closed, never sent on: it is
      modelled by the boolean "has been closed".
    - A [select] without [default] over two channels blocks while none is
      closed and, when both are closed, proceeds with the case the runtime
      picks; the pick is an explicit argument. *)

From Stdlib Require Import String List ZArith Bool.
Import ListNotations.
Local Open Scope string_scope.

(** ** Go values used by the file *)

(** A Go pointer, as the address it holds. *)
Definition ptr := nat.

(** An [error] value; all the errors of this file come from [fmt.Errorf]
    and are told apart by their message. *)
Inductive error : Type :=
| Errorf (msg : string).

(** A [[]byte] buffer handed to a read. *)
Definition Buffer := list Byte.byte.

(** Modelled from the spec: [RTPCodecType] is declared outside this file;
    the receiver's [kind] is the classification of the media type it
    accepts, audio or video. *)
Inductive RTPCodecType : Type :=
| RTPCodecTypeAudio
| RTPCodecTypeVideo.

(** Modelled from the spec: the receive parameters are declared outside this
    file; they contain at least the stream identifier, read by [Receive] as
    [parameters.encodings.SSRC] (a uint32). *)
Record RTPDecodingParameters : Type := { SSRC : N }.
Record RTPReceiveParameters : Type := { encodings : RTPDecodingParameters }.

(** The handles of the collaborators: a non-nil [*DTLSTransport], the SRTP
    and SRTCP sessions it yields, and the read streams they open (the
    [io.ReadCloser] interface value given to [newLossyReadCloser]). *)
Definition DTLSTransport := ptr.
Definition API := ptr.

Inductive Session : Type :=
| SessionSRTP (h : ptr)
| SessionSRTCP (h : ptr).

Inductive ReadStream : Type :=
| ReadStreamSRTP (h : ptr)
| ReadStreamSRTCP (h : ptr).

(** [*lossyReadCloser], built by [newLossyReadCloser(nextReader)]. *)
Record lossyReadCloser : Type := { nextReader : ReadStream }.

(** The [Track] struct, with the three fields that the literal of [Receive]
    sets; [Track_receiver] is the back-reference, the address of the
    receiver. *)
Record Track : Type := {
  Track_kind : RTPCodecType;
  Track_ssrc : N;
  Track_receiver : ptr
}.

(** The [RTPReceiver] struct.  [this] is the address of the struct (what
    the method receiver [r] holds); [closed] and [received] are [true] once
    the channel has been closed; the pointer fields are [None] when nil.
    [transport] is never nil: [NewRTPReceiver] refuses a nil transport. *)
Record RTPReceiver : Type := {
  this : ptr;
  kind : RTPCodecType;
  transport : DTLSTransport;
  track : option Track;
  closed : bool;
  received : bool;
  rtpReadStream : option lossyReadCloser;
  rtcpReadStream : option lossyReadCloser;
  api : option API
}.

Definition set_track (t : option Track) (r : RTPReceiver) : RTPReceiver :=
  {| this := this r; kind := kind r; transport := transport r; track := t;
     closed := closed r; received := received r;
     rtpReadStream := rtpReadStream r; rtcpReadStream := rtcpReadStream r;
     api := api r |}.

Definition set_closed (c : bool) (r : RTPReceiver) : RTPReceiver :=
  {| this := this r; kind := kind r; transport := transport r; track := track r;
     closed := c; received := received r;
     rtpReadStream := rtpReadStream r; rtcpReadStream := rtcpReadStream r;
     api := api r |}.

Definition set_received (c : bool) (r : RTPReceiver) : RTPReceiver :=
  {| this := this r; kind := kind r; transport := transport r; track := track r;
     closed := closed r; received := c;
     rtpReadStream := rtpReadStream r; rtcpReadStream := rtcpReadStream r;
     api := api r |}.

Definition set_rtpReadStream (l : option lossyReadCloser) (r : RTPReceiver) : RTPReceiver :=
  {| this := this r; kind := kind r; transport := transport r; track := track r;
     closed := closed r; received := received r;
     rtpReadStream := l; rtcpReadStream := rtcpReadStream r;
     api := api r |}.

Definition set_rtcpReadStream (l : option lossyReadCloser) (r : RTPReceiver) : RTPReceiver :=
  {| this := this r; kind := kind r; transport := transport r; track := track r;
     closed := closed r; received := received r;
     rtpReadStream := rtpReadStream r; rtcpReadStream := l;
     api := api r |}.

(** The two channels of the struct. *)
Inductive Gate : Type :=
| GateClosed
| GateReceived.

Definition gate (g : Gate) (r : RTPReceiver) : bool :=
  match g with
  | GateClosed => closed r
  | GateReceived => received r
  end.

Definition set_gate (g : Gate) (c : bool) (r : RTPReceiver) : RTPReceiver :=
  match g with
  | GateClosed => set_closed c r
  | GateReceived => set_received c r
  end.

(** What a method body does to the channels and to the collaborators, in
    the order it does it. *)
Inductive Event : Type :=
| EvCloseChan (g : Gate)
| EvGetSRTPSession (t : DTLSTransport)
| EvGetSRTCPSession (t : DTLSTransport)
| EvOpenReadStream (s : Session) (ssrc : N)
| EvNewLossy (s : ReadStream)
| EvLossyRead (l : lossyReadCloser)
| EvLossyClose (l : lossyReadCloser).

(** The case a [select] proceeds with. *)
Inductive Pick : Type :=
| PickClosed
| PickReceived.

(** [select { case <-r.closed: ...; case <-r.received: ... }]: [None] while
    neither channel is closed (the goroutine waits); the only ready case
    when one is; the runtime's [pick] when both are. *)
Definition select2 (closed_ready received_ready : bool) (pick : Pick) : option Pick :=
  match closed_ready, received_ready with
  | false, false => None
  | true, false => Some PickClosed
  | false, true => Some PickReceived
  | true, true => Some pick
  end.

(** ** The collaborators

    The code outside this file that the methods call, as functions of the
    collaborators' state [W]. *)
Class Collaborators (W : Type) : Type := {
  (* r.transport.getSRTPSession() *)
  getSRTPSession : DTLSTransport -> W -> (error + Session) * W;
  (* r.transport.getSRTCPSession() *)
  getSRTCPSession : DTLSTransport -> W -> (error + Session) * W;
  (* session.OpenReadStream(ssrc) *)
  OpenReadStream : Session -> N -> W -> (error + ReadStream) * W;
  (* l.read(b) on a non-nil l: the byte count and the error *)
  lossy_read : lossyReadCloser -> Buffer -> W -> (Z * option error) * W;
  (* l.close() on a non-nil l *)
  lossy_close : lossyReadCloser -> W -> option error * W
}.

(** ** Method bodies as procedures *)

(** How a call ends: it returns, it panics (a nil dereference, or the close
    of a closed channel), or it waits on the receiver's channels. *)
Inductive Outcome (A : Type) : Type :=
| Returns (a : A)
| Panics
| Blocks.
Arguments Returns {A} a.
Arguments Panics {A}.
Arguments Blocks {A}.

Section Receiver.

Context {W : Type} `{Collaborators W}.

Record Machine : Type := {
  self : RTPReceiver;
  world : W;
  trace : list Event
}.

Definition Proc (A : Type) : Type := Machine -> Outcome A * Machine.

Definition ret {A} (a : A) : Proc A := fun m => (Returns a, m).

Definition bind {A B} (c : Proc A) (k : A -> Proc B) : Proc B :=
  fun m =>
    match c m with
    | (Returns a, m') => k a m'
    | (Panics, m') => (Panics, m')
    | (Blocks, m') => (Blocks, m')
    end.

Definition panic {A} : Proc A := fun m => (Panics, m).
Definition block {A} : Proc A := fun m => (Blocks, m).

Definition getr : Proc RTPReceiver := fun m => (Returns (self m), m).

Definition modify (f : RTPReceiver -> RTPReceiver) : Proc unit :=
  fun m => (Returns tt, {| self := f (self m); world := world m; trace := trace m |}).

Definition emit (e : Event) : Proc unit :=
  fun m => (Returns tt, {| self := self m; world := world m; trace := trace m ++ [e] |}).

(** A call into a collaborator. *)
Definition extern {A} (e : Event) (f : W -> A * W) : Proc A :=
  fun m =>
    let (a, w') := f (world m) in
    (Returns a, {| self := self m; world := w'; trace := trace m ++ [e] |}).

Notation "x <- c ;; k" := (bind c (fun x => k))
  (at level 61, c at next level, right associativity).
Notation "c ;;; k" := (bind c (fun _ => k))
  (at level 61, right associativity).
(* x, err := c; if err != nil { return err }; k *)
Notation "x <-? c ;; k" :=
  (bind c (fun res => match res with
                      | inl err => ret (Some err)
                      | inr x => k
                      end))
  (at level 61, c at next level, right associativity).

(** [close(ch)]: closing a channel that is already closed panics. *)
Definition close_chan (g : Gate) : Proc unit :=
  r <- getr ;;
  if gate g r then panic
  else modify (set_gate g true) ;;; emit (EvCloseChan g).

(** [newLossyReadCloser(nextReader)]. *)
Definition newLossyReadCloser (s : ReadStream) : Proc lossyReadCloser :=
  emit (EvNewLossy s) ;;; ret {| nextReader := s |}.

(** Modelled from the spec: the methods of [lossyReadCloser] are declared
    outside this file.  On a reader that exists they are the collaborator's
    [read] and [close]; on the nil pointer, the field of a receiver whose
    readers were never stored, the call is a nil dereference. *)
Definition lossyReadCloser_read (l : option lossyReadCloser) (b : Buffer)
  : Proc (Z * option error) :=
  match l with
  | None => panic
  | Some l => extern (EvLossyRead l) (lossy_read l b)
  end.

Definition lossyReadCloser_close (l : option lossyReadCloser) : Proc (option error) :=
  match l with
  | None => panic
  | Some l => extern (EvLossyClose l) (lossy_close l)
  end.

(** [NewRTPReceiver]: [new_addr] is the address of the allocated struct. *)
Definition NewRTPReceiver (new_addr : ptr) (api : option API) (kind : RTPCodecType)
    (transport : option DTLSTransport) : error + RTPReceiver :=
  match transport with
  | None => inl (Errorf "DTLSTransport must not be nil")
  | Some t =>
      inr {| this := new_addr; kind := kind; transport := t; track := None;
             closed := false; received := false;
             rtpReadStream := None; rtcpReadStream := None;
             api := api |}
  end.

(** [Track] (the accessor; the struct has the name [Track] here). *)
Definition RTPReceiver_Track : Proc (option Track) :=
  r <- getr ;;
  ret (track r).

(** [Receive]. *)
Definition Receive (parameters : RTPReceiveParameters) : Proc (option error) :=
  r <- getr ;;
  if received r then ret (Some (Errorf "Receive has already been called"))
  else
    close_chan GateReceived ;;;
    modify (set_track (Some {| Track_kind := kind r;
                               Track_ssrc := SSRC (encodings parameters);
                               Track_receiver := this r |})) ;;;
    srtpSession <-? extern (EvGetSRTPSession (transport r))
                      (getSRTPSession (transport r)) ;;
    srtpReadStream <-? extern (EvOpenReadStream srtpSession (SSRC (encodings parameters)))
                         (OpenReadStream srtpSession (SSRC (encodings parameters))) ;;
    srtcpSession <-? extern (EvGetSRTCPSession (transport r))
                       (getSRTCPSession (transport r)) ;;
    srtcpReadStream <-? extern (EvOpenReadStream srtcpSession (SSRC (encodings parameters)))
                          (OpenReadStream srtcpSession (SSRC (encodings parameters))) ;;
    rtp <- newLossyReadCloser srtpReadStream ;;
    modify (set_rtpReadStream (Some rtp)) ;;;
    rtcp <- newLossyReadCloser srtcpReadStream ;;
    modify (set_rtcpReadStream (Some rtcp)) ;;;
    ret None.

(** [Read]: incoming RTCP. *)
Definition Read (b : Buffer) (pick : Pick) : Proc (Z * option error) :=
  r <- getr ;;
  match select2 (closed r) (received r) pick with
  | None => block
  | Some PickClosed => ret (0%Z, Some (Errorf "RTPSender has been stopped"))
  | Some PickReceived => lossyReadCloser_read (rtcpReadStream r) b
  end.

(** [Stop]. *)
Definition Stop : Proc (option error) :=
  r <- getr ;;
  if closed r then ret None
  else if received r then
    err <- lossyReadCloser_close (rtcpReadStream r) ;;
    match err with
    | Some e => ret (Some e)
    | None =>
        err <- lossyReadCloser_close (rtpReadStream r) ;;
        match err with
        | Some e => ret (Some e)
        | None => close_chan GateClosed ;;; ret None
        end
    end
  else close_chan GateClosed ;;; ret None.

(** [readRTP]: incoming RTP, for the track. *)
Definition readRTP (b : Buffer) (pick : Pick) : Proc (Z * option error) :=
  r <- getr ;;
  match select2 (closed r) (received r) pick with
  | None => block
  | Some PickClosed => ret (0%Z, Some (Errorf "RTPSender has been stopped"))
  | Some PickReceived => lossyReadCloser_read (rtpReadStream r) b
  end.

(** ** Calls and histories *)

(** A method called on receiver [r] while the collaborators are in state
    [w], with an empty trace: the trace of the result is what this call
    did. *)
Definition call {A} (p : Proc A) (r : RTPReceiver) (w : W) : Outcome A * Machine :=
  p {| self := r; world := w; trace := [] |}.

(** The receiver a call leaves behind (also when it panics or blocks). *)
Definition after {A} (p : Proc A) (r : RTPReceiver) (w : W) : RTPReceiver :=
  self (snd (call p r w)).

(** The methods a caller may invoke. *)
Inductive Call : Type :=
| CallTrack
| CallReceive (parameters : RTPReceiveParameters)
| CallRead (b : Buffer) (pick : Pick)
| CallStop
| CallReadRTP (b : Buffer) (pick : Pick).

Definition step (c : Call) (r : RTPReceiver) (w : W) : RTPReceiver :=
  match c with
  | CallTrack => after RTPReceiver_Track r w
  | CallReceive p => after (Receive p) r w
  | CallRead b pick => after (Read b pick) r w
  | CallStop => after Stop r w
  | CallReadRTP b pick => after (readRTP b pick) r w
  end.

(** [later r r']: [r'] is [r] after any number of calls, each made with the
    collaborators in an arbitrary state. *)
Inductive later (r : RTPReceiver) : RTPReceiver -> Prop :=
| later_now : later r r
| later_call : forall r' c w, later r r' -> later r (step c r' w).

(** The states of a receiver made by [NewRTPReceiver]. *)
Definition reachable (r : RTPReceiver) : Prop :=
  exists addr a k t r0,
    NewRTPReceiver addr a k t = inr r0 /\ later r0 r.

(** ** Vocabulary of the properties *)

(** The two errors made by this file's own [fmt.Errorf] calls. *)
Definition ErrAlreadyReceived : error := Errorf "Receive has already been called".
Definition ErrStopped : error := Errorf "RTPSender has been stopped".

(** The machine a call leaves when it touched nothing. *)
Definition untouched (r : RTPReceiver) (w : W) : Machine :=
  {| self := r; world := w; trace := [] |}.

Definition present {A : Type} (o : option A) : bool :=
  match o with
  | Some _ => true
  | None => false
  end.

(** The stream handle, the media reader and the control reader are all
    absent or all present. *)
Definition all_or_none (r : RTPReceiver) : bool :=
  Bool.eqb (present (track r)) (present (rtpReadStream r))
  && Bool.eqb (present (rtpReadStream r)) (present (rtcpReadStream r)).

(** The two readers are both absent or both present; the stream handle is
    present exactly when [received] is closed; readers are present only
    behind a closed gate. *)
Definition lifecycle_inv (r : RTPReceiver) : bool :=
  Bool.eqb (present (rtpReadStream r)) (present (rtcpReadStream r))
  && Bool.eqb (present (track r)) (received r)
  && implb (present (rtpReadStream r)) (received r).

End Receiver.

Arguments Machine W : clear implicits.

(** ** The convenience reader of control packets *)

(** The parser of control packets, outside this file.  [Unmarshal_prefix b i
    w] is [rtcp.Unmarshal(b[:i])] on the bytes that the read left in [b]:
    the packet (nil when there is none) and the error; it panics when [i]
    is outside the bounds of [b].  The header that [rtcp.Unmarshal] returns
    as well is dropped by the caller. *)
Class PacketCodec (W Packet : Type) : Type := {
  Unmarshal_prefix : Buffer -> Z -> W -> Outcome (option Packet * option error)
}.

Section ControlPackets.

Context {W Packet : Type} `{Collaborators W} `{PacketCodec W Packet}.

(** [ReadRTCP]: [Read], then the parse of what was read. *)
Definition ReadRTCP (b : Buffer) (pick : Pick)
  : Proc (option Packet * option error) :=
  bind (Read b pick) (fun res =>
    match snd res with
    | Some err => ret (None, Some err)
    | None => fun m => (Unmarshal_prefix b (fst res) (world m), m)
    end).

End ControlPackets.

(** ** A scripted instance of the collaborators

    The answers of the transport, its sessions and the readers are fixed
    by a script; it makes the methods run on concrete inputs. *)
Module Scripted.

Record Script : Type := {
  srtp_session : error + Session;
  srtcp_session : error + Session;
  srtp_stream : error + ReadStream;
  srtcp_stream : error + ReadStream;
  read_answer : Z * option error;
  rtcp_close_answer : option error;
  rtp_close_answer : option error
}.

#[global] Instance collaborators : Collaborators Script := {|
  getSRTPSession := fun _ w => (srtp_session w, w);
  getSRTCPSession := fun _ w => (srtcp_session w, w);
  OpenReadStream := fun s _ w =>
    match s with
    | SessionSRTP _ => (srtp_stream w, w)
    | SessionSRTCP _ => (srtcp_stream w, w)
    end;
  lossy_read := fun _ _ w => (read_answer w, w);
  lossy_close := fun l w =>
    match nextReader l with
    | ReadStreamSRTCP _ => (rtcp_close_answer w, w)
    | ReadStreamSRTP _ => (rtp_close_answer w, w)
    end
|}.

(** Every collaborator answers without error. *)
Definition healthy : Script :=
  {| srtp_session := inr (SessionSRTP 1);
     srtcp_session := inr (SessionSRTCP 2);
     srtp_stream := inr (ReadStreamSRTP 3);
     srtcp_stream := inr (ReadStreamSRTCP 4);
     read_answer := (7%Z, None);
     rtcp_close_answer := None;
     rtp_close_answer := None |}.

(** The collaborators once both readers have been closed: a read answers
    that its reader is closed. *)
Definition readers_closed : Script :=
  {| srtp_session := inr (SessionSRTP 1);
     srtcp_session := inr (SessionSRTCP 2);
     srtp_stream := inr (ReadStreamSRTP 3);
     srtcp_stream := inr (ReadStreamSRTCP 4);
     read_answer := (0%Z, Some (Errorf "lossyReadCloser is closed"));
     rtcp_close_answer := Some (Errorf "lossyReader is already closed");
     rtp_close_answer := Some (Errorf "lossyReader is already closed") |}.

(** The transport has no SRTP session to give. *)
Definition no_session : Script :=
  {| srtp_session := inl (Errorf "the DTLS transport has not started yet");
     srtcp_session := inr (SessionSRTCP 2);
     srtp_stream := inr (ReadStreamSRTP 3);
     srtcp_stream := inr (ReadStreamSRTCP 4);
     read_answer := (0%Z, None);
     rtcp_close_answer := None;
     rtp_close_answer := None |}.

(** The SRTP session refuses to open the read stream. *)
Definition no_stream : Script :=
  {| srtp_session := inr (SessionSRTP 1);
     srtcp_session := inr (SessionSRTCP 2);
     srtp_stream := inl (Errorf "failed to open ReadStream");
     srtcp_stream := inr (ReadStreamSRTCP 4);
     read_answer := (0%Z, None);
     rtcp_close_answer := None;
     rtp_close_answer := None |}.

(** The control reader fails to close. *)
Definition rtcp_close_fails : Script :=
  {| srtp_session := inr (SessionSRTP 1);
     srtcp_session := inr (SessionSRTCP 2);
     srtp_stream := inr (ReadStreamSRTP 3);
     srtcp_stream := inr (ReadStreamSRTCP 4);
     read_answer := (7%Z, None);
     rtcp_close_answer := Some (Errorf "close failed");
     rtp_close_answer := None |}.

(** A parser that knows a packet by its length, for a caller whose buffer
    has [spare] bytes of capacity beyond its length ([cap(b) - len(b)]):
    [b[:i]] panics exactly when [i] is negative or exceeds that capacity;
    there is nothing to parse in an empty prefix. *)
Definition codec_with_spare (spare : nat) : PacketCodec Script nat := {|
  Unmarshal_prefix := fun b i _ =>
    if ((0 <=? i) && (i <=? Z.of_nat (List.length b + spare)))%Z
    then if (i =? 0)%Z
         then Returns (None, Some (Errorf "rtcp: packet too short"))
         else Returns (Some (Z.to_nat i), None)
    else Panics
|}.

(** The scripted runs hand in buffers made without spare capacity
    ([make([]byte, n)]: the capacity is the length). *)
#[global] Instance codec : PacketCodec Script nat := codec_with_spare 0.

(** The readers that [Receive] stores when every collaborator answers. *)
Definition rtcp_reader : lossyReadCloser := {| nextReader := ReadStreamSRTCP 4 |}.
Definition rtp_reader : lossyReadCloser := {| nextReader := ReadStreamSRTP 3 |}.

(** A receiver as [NewRTPReceiver] returns it: video, at address 100, on
    transport 9. *)
Definition fresh : RTPReceiver :=
  {| this := 100; kind := RTPCodecTypeVideo; transport := 9; track := None;
     closed := false; received := false;
     rtpReadStream := None; rtcpReadStream := None; api := Some 8 |}.

Definition params : RTPReceiveParameters :=
  {| encodings := {| SSRC := 12345%N |} |}.

(** [fresh] after an activation that succeeded. *)
Definition activated : RTPReceiver :=
  {| this := 100; kind := RTPCodecTypeVideo; transport := 9;
     track := Some {| Track_kind := RTPCodecTypeVideo; Track_ssrc := 12345%N;
                      Track_receiver := 100 |};
     closed := false; received := true;
     rtpReadStream := Some rtp_reader;
     rtcpReadStream := Some rtcp_reader;
     api := Some 8 |}.

(** [fresh] after an activation that failed. *)
Definition half_activated : RTPReceiver :=
  {| this := 100; kind := RTPCodecTypeVideo; transport := 9;
     track := Some {| Track_kind := RTPCodecTypeVideo; Track_ssrc := 12345%N;
                      Track_receiver := 100 |};
     closed := false; received := true;
     rtpReadStream := None; rtcpReadStream := None;
     api := Some 8 |}.

End Scripted.

(** ** Properties *)

Example new_receiver : NewRTPReceiver 100 (Some 8) RTPCodecTypeVideo (Some 9) = inr Scripted.fresh.
Proof. reflexivity. Qed.

Example new_receiver_nil_transport :
  NewRTPReceiver 100 (Some 8) RTPCodecTypeAudio None
  = inl (Errorf "DTLSTransport must not be nil").
Proof. reflexivity. Qed.

Example receive_healthy :
  call (Receive Scripted.params) Scripted.fresh Scripted.healthy
  = (Returns None,
     {| self := Scripted.activated; world := Scripted.healthy;
        trace := [EvCloseChan GateReceived;
                  EvGetSRTPSession 9; EvOpenReadStream (SessionSRTP 1) 12345;
                  EvGetSRTCPSession 9; EvOpenReadStream (SessionSRTCP 2) 12345;
                  EvNewLossy (ReadStreamSRTP 3); EvNewLossy (ReadStreamSRTCP 4)] |}).
Proof. reflexivity. Qed.

Example receive_no_stream :
  call (Receive Scripted.params) Scripted.fresh Scripted.no_stream
  = (Returns (Some (Errorf "failed to open ReadStream")),
     {| self := Scripted.half_activated; world := Scripted.no_stream;
        trace := [EvCloseChan GateReceived;
                  EvGetSRTPSession 9; EvOpenReadStream (SessionSRTP 1) 12345] |}).
Proof. reflexivity. Qed.

Example read_half_activated :
  fst (call (Read [] PickReceived) Scripted.half_activated Scripted.healthy) = Panics.
Proof. reflexivity. Qed.

Example stop_half_activated :
  call Stop Scripted.half_activated Scripted.healthy
  = (Panics, {| self := Scripted.half_activated; world := Scripted.healthy; trace := [] |}).
Proof. reflexivity. Qed.

Section Properties.

Context {W : Type} `{Collaborators W}.

Ltac unfold_methods :=
  unfold step, after, call, untouched, Receive, Stop, Read, readRTP, RTPReceiver_Track,
    close_chan, newLossyReadCloser, lossyReadCloser_read, lossyReadCloser_close,
    bind, ret, getr, modify, emit, extern, panic, block, select2,
    ErrAlreadyReceived, ErrStopped in *.

Ltac atomic_scrutinee x :=
  lazymatch x with
  | context [match _ with _ => _ end] => fail
  | _ => idtac
  end.

Ltac break_match :=
  match goal with
  | |- context [match ?x with _ => _ end] => atomic_scrutinee x; destruct x eqn:?
  | H : context [match ?x with _ => _ end] |- _ => atomic_scrutinee x; destruct x eqn:?
  end.

Ltac run_method :=
  unfold_methods; cbn in *;
  repeat (break_match; cbn in *; subst; try congruence).

(** *** The gates only close *)

Lemma Receive_spent (r : RTPReceiver) (p : RTPReceiveParameters) (w : W) :
  received r = true ->
  call (Receive p) r w = (Returns (Some ErrAlreadyReceived), untouched r w).
Proof. intros Hr. unfold_methods. cbn. rewrite Hr. reflexivity. Qed.

Lemma Receive_received (r : RTPReceiver) (p : RTPReceiveParameters) (w : W) :
  received (after (Receive p) r w) = true.
Proof. run_method; auto. Qed.

Lemma Stop_spent (r : RTPReceiver) (w : W) :
  closed r = true ->
  call Stop r w = (Returns None, untouched r w).
Proof. intros Hc. unfold_methods. cbn. rewrite Hc. reflexivity. Qed.

Lemma Stop_success_closed (r : RTPReceiver) (w : W) :
  fst (call Stop r w) = Returns None ->
  closed (after Stop r w) = true.
Proof. run_method; auto. Qed.

Lemma step_gate_mono (g : Gate) (c : Call) (r : RTPReceiver) (w : W) :
  gate g r = true -> gate g (step c r w) = true.
Proof. destruct g, c; run_method; auto. Qed.

Lemma later_gate_mono (g : Gate) (r r' : RTPReceiver) :
  later r r' -> gate g r = true -> gate g r' = true.
Proof.
  induction 1 as [|r' c w _ IH]; intros Hg; [assumption|].
  apply step_gate_mono, IH, Hg.
Qed.

(** *** Activation *)

(** C1. Activation is one-shot: once [Receive] has been called on a
    receiver, whether that call returned nil or an error, and whatever is
    called in between, every later [Receive] returns the error "Receive has
    already been called" and touches nothing. *)
Theorem Receive_one_shot (r : RTPReceiver) (p : RTPReceiveParameters) (w : W)
    (r' : RTPReceiver) (p' : RTPReceiveParameters) (w' : W) :
  later (after (Receive p) r w) r' ->
  call (Receive p') r' w' = (Returns (Some ErrAlreadyReceived), untouched r' w').
Proof.
  intros Hlater. apply Receive_spent.
  apply (later_gate_mono GateReceived _ _ Hlater).
  apply Receive_received.
Qed.

(** C2. [Receive] closes [received] before anything else: on a receiver
    whose gate is open the close is the first thing the call does, before
    any call to the transport; after any [Receive], whatever it returns,
    the gate is closed, it stays closed, and no later [Receive] gets past
    it. *)
Theorem Receive_closes_gate_first (r : RTPReceiver) (p : RTPReceiveParameters) (w : W) :
  received (after (Receive p) r w) = true
  /\ (received r = false ->
      exists rest,
        trace (snd (call (Receive p) r w)) = EvCloseChan GateReceived :: rest)
  /\ (forall r', later (after (Receive p) r w) r' ->
        received r' = true
        /\ forall p' w',
             call (Receive p') r' w'
             = (Returns (Some ErrAlreadyReceived), untouched r' w')).
Proof.
  split; [apply Receive_received|split].
  - intros Hopen. run_method; eauto.
  - intros r' Hlater.
    assert (Hr' : received r' = true).
    { apply (later_gate_mono GateReceived _ _ Hlater), Receive_received. }
    split; [assumption|]. intros p' w'. apply Receive_spent, Hr'.
Qed.

(** *** The stream handle and the readers *)

Lemma step_lifecycle_inv (c : Call) (r : RTPReceiver) (w : W) :
  lifecycle_inv r = true -> lifecycle_inv (step c r w) = true.
Proof.
  unfold lifecycle_inv. destruct r as [a k t tr cl rc rtp rtcp ap].
  destruct c, tr, rc, rtp, rtcp; cbn; intros Hinv; try discriminate Hinv;
    run_method; auto.
Qed.

Lemma reachable_lifecycle_inv (r : RTPReceiver) :
  reachable r -> lifecycle_inv r = true.
Proof.
  intros (addr & a & k & t & r0 & Hnew & Hlater).
  induction Hlater as [|r' c w _ IH].
  - destruct t; cbn in Hnew; [|discriminate].
    injection Hnew as <-. reflexivity.
  - apply step_lifecycle_inv, IH.
Qed.

(** C3, amended. In every reachable state the media reader and the control
    reader are both absent or both present, the stream handle is present
    exactly when [received] is closed, and readers are present only with
    the handle; a [Receive] that passes the gate closes it and sets the
    handle in the same call, and leaves the readers present exactly when it
    returns nil. *)
Theorem handle_and_readers_invariant (r : RTPReceiver) :
  reachable r ->
  lifecycle_inv r = true
  /\ forall p w,
       received r = false ->
       received (after (Receive p) r w) = true
       /\ present (track (after (Receive p) r w)) = true
       /\ (present (rtpReadStream (after (Receive p) r w)) = true
           <-> fst (call (Receive p) r w) = Returns None)
       /\ (present (rtcpReadStream (after (Receive p) r w)) = true
           <-> fst (call (Receive p) r w) = Returns None).
Proof.
  intros Hreach. pose proof (reachable_lifecycle_inv r Hreach) as Hinv.
  split; [assumption|]. intros p w Hopen.
  unfold lifecycle_inv in Hinv. destruct r as [a k t tr cl rc rtp rtcp ap].
  cbn in Hopen. subst rc.
  destruct tr, rtp, rtcp; cbn in Hinv; try discriminate Hinv.
  run_method; repeat split; intros; auto; try discriminate.
Qed.

(** *** Reading *)

(** A read with exactly one signal fired ([Read] and [readRTP] alike): with
    [closed] fired and [received] not, it returns 0 bytes and the error
    "RTPSender has been stopped" and touches nothing; with [received] fired
    and [closed] not, it is the [read] on the control reader field (for
    [Read]) or the media reader field (for [readRTP]); when that field
    holds a reader, the call returns the reader's byte count and error
    unchanged.  When the field is nil the call is a call on the nil
    reader and does not return. *)
Theorem read_follows_the_fired_signal (r : RTPReceiver) (b : Buffer) (pick : Pick) (w : W) :
  (closed r = true -> received r = false ->
     call (Read b pick) r w = (Returns (0%Z, Some ErrStopped), untouched r w)
     /\ call (readRTP b pick) r w = (Returns (0%Z, Some ErrStopped), untouched r w))
  /\ (received r = true -> closed r = false ->
        call (Read b pick) r w
        = call (lossyReadCloser_read (rtcpReadStream r) b) r w
        /\ call (readRTP b pick) r w
           = call (lossyReadCloser_read (rtpReadStream r) b) r w
        /\ (forall l, rtcpReadStream r = Some l ->
              call (Read b pick) r w
              = (Returns (fst (lossy_read l b w)),
                 {| self := r; world := snd (lossy_read l b w);
                    trace := [EvLossyRead l] |}))
        /\ (forall l, rtpReadStream r = Some l ->
              call (readRTP b pick) r w
              = (Returns (fst (lossy_read l b w)),
                 {| self := r; world := snd (lossy_read l b w);
                    trace := [EvLossyRead l] |}))).
Proof.
  split.
  - intros Hc Hr. unfold_methods. cbn. rewrite Hc, Hr. split; reflexivity.
  - intros Hr Hc. unfold_methods. cbn. rewrite Hc, Hr.
    repeat split; intros l Hl; rewrite Hl; cbn;
      destruct (lossy_read l b w); reflexivity.
Qed.

(** C5, amended. After a [Stop] that returned nil, whatever is called in
    between, [closed] stays fired and a read never waits on the channels:
    it returns 0 bytes and "RTPSender has been stopped" whenever [received]
    has not fired or the [select] proceeds with the [closed] case; when
    both signals have fired and the [select] proceeds with the [received]
    case, it is the [read] of the stored reader instead. *)
Theorem read_after_Stop (r : RTPReceiver) (w : W) (r' : RTPReceiver)
    (b : Buffer) (pick : Pick) (w' : W) :
  fst (call Stop r w) = Returns None ->
  later (after Stop r w) r' ->
  closed r' = true
  /\ fst (call (Read b pick) r' w') <> Blocks
  /\ fst (call (readRTP b pick) r' w') <> Blocks
  /\ (received r' = false \/ pick = PickClosed ->
        call (Read b pick) r' w' = (Returns (0%Z, Some ErrStopped), untouched r' w')
        /\ call (readRTP b pick) r' w' = (Returns (0%Z, Some ErrStopped), untouched r' w'))
  /\ (received r' = true -> pick = PickReceived ->
        call (Read b pick) r' w'
        = call (lossyReadCloser_read (rtcpReadStream r') b) r' w'
        /\ call (readRTP b pick) r' w'
           = call (lossyReadCloser_read (rtpReadStream r') b) r' w').
Proof.
  intros Hok Hlater.
  assert (Hc : closed r' = true).
  { apply (later_gate_mono GateClosed _ _ Hlater), Stop_success_closed, Hok. }
  split; [assumption|].
  unfold_methods. cbn. rewrite Hc.
  split; [|split; [|split]].
  - destruct (received r'), pick, (rtcpReadStream r'); cbn;
      try destruct (lossy_read _ _ _); cbn; discriminate.
  - destruct (received r'), pick, (rtpReadStream r'); cbn;
      try destruct (lossy_read _ _ _); cbn; discriminate.
  - intros [-> | ->]; [split; reflexivity|].
    destruct (received r'); split; reflexivity.
  - intros -> ->. split; reflexivity.
Qed.

(** *** Teardown *)

(** C6. Teardown is idempotent after success: once a [Stop] has returned
    nil, whatever is called in between, every later [Stop] returns nil,
    calls no collaborator (no reader is closed again) and leaves the
    receiver and the collaborators as they were. *)
Theorem Stop_idempotent (r : RTPReceiver) (w : W) (r' : RTPReceiver) (w' : W) :
  fst (call Stop r w) = Returns None ->
  later (after Stop r w) r' ->
  call Stop r' w' = (Returns None, untouched r' w').
Proof.
  intros Hok Hlater. apply Stop_spent.
  apply (later_gate_mono GateClosed _ _ Hlater), Stop_success_closed, Hok.
Qed.

(** C7, amended. [Stop] on a receiver whose [received] gate is closed,
    whose [closed] gate is open and whose readers are stored: it closes the
    control reader first; if that close fails it returns the error at
    once, the media reader is not closed; otherwise it closes the media
    reader and returns its error if that fails; in both failures the
    receiver is left as it was, [closed] still open, so a later [Stop]
    starts again; when both closes succeed it closes [closed] and returns
    nil. *)
Theorem Stop_closes_control_then_media (r : RTPReceiver) (w : W)
    (c m : lossyReadCloser) :
  received r = true -> closed r = false ->
  rtcpReadStream r = Some c -> rtpReadStream r = Some m ->
  (forall e w1,
     lossy_close c w = (Some e, w1) ->
     call Stop r w
     = (Returns (Some e),
        {| self := r; world := w1; trace := [EvLossyClose c] |}))
  /\ (forall e w1 w2,
        lossy_close c w = (None, w1) -> lossy_close m w1 = (Some e, w2) ->
        call Stop r w
        = (Returns (Some e),
           {| self := r; world := w2;
              trace := [EvLossyClose c; EvLossyClose m] |}))
  /\ (forall w1 w2,
        lossy_close c w = (None, w1) -> lossy_close m w1 = (None, w2) ->
        call Stop r w
        = (Returns None,
           {| self := set_closed true r; world := w2;
              trace := [EvLossyClose c; EvLossyClose m; EvCloseChan GateClosed] |}))
  /\ (forall e, fst (call Stop r w) = Returns (Some e) ->
        after Stop r w = r /\ closed (after Stop r w) = false).
Proof.
  intros Hr Hc Hrtcp Hrtp. unfold_methods. cbn. rewrite Hc, Hr, Hrtcp, Hrtp. cbn.
  split; [|split; [|split]].
  - intros e w1 H1. rewrite H1. reflexivity.
  - intros e w1 w2 H1 H2. rewrite H1. cbn. rewrite H2. reflexivity.
  - intros w1 w2 H1 H2. rewrite H1. cbn. rewrite H2. cbn. rewrite Hc. reflexivity.
  - intros e He.
    destruct (lossy_close c w) as [[e1|] w1]; cbn in *; [auto|].
    destruct (lossy_close m w1) as [[e2|] w2]; cbn in *; [auto|].
    rewrite Hc in He. cbn in He. discriminate.
Qed.

(** C8. [Stop] on a receiver that was never activated ([received] open)
    returns nil without waiting, calls no collaborator, so closes no
    reader, and leaves [closed] closed and nothing else changed. *)
Theorem Stop_before_activation (r : RTPReceiver) (w : W) :
  received r = false ->
  fst (call Stop r w) = Returns None
  /\ closed (after Stop r w) = true
  /\ after Stop r w = set_closed true r
  /\ world (snd (call Stop r w)) = w
  /\ (forall l, ~ In (EvLossyClose l) (trace (snd (call Stop r w))))
  /\ trace (snd (call Stop r w))
     = (if closed r then [] else [EvCloseChan GateClosed]).
Proof.
  intros Hr. destruct r as [a k t tr cl rc rtp rtcp ap]. cbn in Hr. subst rc.
  unfold_methods. destruct cl; cbn; repeat split; auto;
    intros l [Hin|Hin]; [discriminate Hin|destruct Hin].
Qed.

(** *** The stream handle accessor *)

(** C9. After a [Receive] that passed the gate and returned an error (a
    session was unavailable or a read stream did not open), [Track]
    returns the handle built before the failing step: the receiver's kind,
    the SSRC of the parameters and the address of the receiver. *)
Theorem Track_after_failed_Receive (r : RTPReceiver) (p : RTPReceiveParameters)
    (w : W) (e : error) (w' : W) :
  received r = false ->
  fst (call (Receive p) r w) = Returns (Some e) ->
  fst (call RTPReceiver_Track (after (Receive p) r w) w')
  = Returns (Some {| Track_kind := kind r;
                     Track_ssrc := SSRC (encodings p);
                     Track_receiver := this r |}).
Proof. intros Hr He. run_method; reflexivity. Qed.

(** C10. [Stop] never writes the stream handle: whatever [Stop] returns,
    [Track] gives the same value after the call as before it. *)
Theorem Stop_keeps_Track (r : RTPReceiver) (w w1 w2 : W) :
  track (after Stop r w) = track r
  /\ fst (call RTPReceiver_Track (after Stop r w) w2)
     = fst (call RTPReceiver_Track r w1).
Proof. run_method; auto. Qed.

(** *** What the methods keep *)

Lemma step_identity (c : Call) (r : RTPReceiver) (w : W) :
  this (step c r w) = this r /\ kind (step c r w) = kind r
  /\ transport (step c r w) = transport r /\ api (step c r w) = api r.
Proof. destruct c; run_method; auto. Qed.

Lemma step_frozen (c : Call) (r : RTPReceiver) (w : W) :
  received r = true ->
  track (step c r w) = track r
  /\ rtpReadStream (step c r w) = rtpReadStream r
  /\ rtcpReadStream (step c r w) = rtcpReadStream r.
Proof. intros Hr. destruct c; run_method; auto. Qed.

Lemma later_frozen (r r' : RTPReceiver) :
  later r r' -> received r = true ->
  track r' = track r
  /\ rtpReadStream r' = rtpReadStream r
  /\ rtcpReadStream r' = rtcpReadStream r.
Proof.
  induction 1 as [|r' c w Hl IH]; intros Hr; [auto|].
  destruct (IH Hr) as (Ht & Hrtp & Hrtcp).
  destruct (step_frozen c r' w (later_gate_mono GateReceived _ _ Hl Hr))
    as (Ht' & Hrtp' & Hrtcp').
  repeat split; congruence.
Qed.

Lemma later_reachable (r r' : RTPReceiver) :
  reachable r -> later r r' -> reachable r'.
Proof.
  intros (addr & a & k & t & r0 & Hnew & Hl0) Hl.
  exists addr, a, k, t, r0. split; [assumption|].
  induction Hl as [|r' c w _ IH]; [assumption|]. apply later_call, IH.
Qed.

Lemma step_handle (c : Call) (r : RTPReceiver) (w : W) :
  (forall t, track r = Some t -> Track_kind t = kind r /\ Track_receiver t = this r) ->
  forall t, track (step c r w) = Some t ->
    Track_kind t = kind r /\ Track_receiver t = this r.
Proof.
  intros Hwf t. destruct c; run_method; intros Ht; auto;
    injection Ht as <-; auto.
Qed.

Lemma reachable_handle (r : RTPReceiver) (t : Track) :
  reachable r -> track r = Some t ->
  Track_kind t = kind r /\ Track_receiver t = this r.
Proof.
  intros (addr & a & k & tr & r0 & Hnew & Hl). revert t.
  induction Hl as [|r' c w _ IH]; intros t Ht.
  - destruct tr; cbn in Hnew; [|discriminate].
    injection Hnew as <-. discriminate Ht.
  - destruct (step_identity c r' w) as (Hthis & Hkind & _).
    rewrite Hthis, Hkind. exact (step_handle c r' w IH t Ht).
Qed.

(** X1. No method ever reopens a channel: once [closed] or [received] is
    closed it is closed in every later state of the receiver. *)
Theorem gates_never_reopen (r r' : RTPReceiver) :
  later r r' ->
  (closed r = true -> closed r' = true)
  /\ (received r = true -> received r' = true).
Proof.
  intros Hl. split; intros Hg.
  - exact (later_gate_mono GateClosed _ _ Hl Hg).
  - exact (later_gate_mono GateReceived _ _ Hl Hg).
Qed.

(** X2. The address, the kind, the transport and the API reference of a
    receiver are never written after construction: every later state has
    the same four values. *)
Theorem identity_fields_immutable (r r' : RTPReceiver) :
  later r r' ->
  this r' = this r /\ kind r' = kind r
  /\ transport r' = transport r /\ api r' = api r.
Proof.
  induction 1 as [|r' c w _ IH]; [auto|].
  destruct IH as (H1 & H2 & H3 & H4).
  destruct (step_identity c r' w) as (H1' & H2' & H3' & H4').
  repeat split; congruence.
Qed.

(** X3. In a reachable state a stored stream handle carries the receiver's
    own kind and address, and it is never replaced: every later [Track]
    returns the same handle. *)
Theorem Track_handle_stable (r r' : RTPReceiver) (t : Track) (w : W) :
  reachable r -> track r = Some t -> later r r' ->
  Track_kind t = kind r /\ Track_receiver t = this r
  /\ fst (call RTPReceiver_Track r' w) = Returns (Some t).
Proof.
  intros Hreach Ht Hl.
  destruct (reachable_handle r t Hreach Ht) as (Hk & Hthis).
  split; [assumption|split; [assumption|]].
  assert (Hr : received r = true).
  { pose proof (reachable_lifecycle_inv r Hreach) as Hinv.
    unfold lifecycle_inv in Hinv. rewrite Ht in Hinv. cbn in Hinv.
    destruct (received r); [reflexivity|].
    rewrite andb_false_r in Hinv. discriminate Hinv. }
  destruct (later_frozen r r' Hl Hr) as (Ht' & _).
  unfold_methods. cbn. rewrite Ht', Ht. reflexivity.
Qed.

(** X4. In a reachable state stored readers are never replaced and never
    reset to nil, not even by [Stop]: every later state holds the same
    media reader and the same control reader. *)
Theorem readers_stable (r r' : RTPReceiver) (m c : lossyReadCloser) :
  reachable r -> later r r' ->
  (rtpReadStream r = Some m -> rtpReadStream r' = Some m)
  /\ (rtcpReadStream r = Some c -> rtcpReadStream r' = Some c).
Proof.
  intros Hreach Hl.
  pose proof (reachable_lifecycle_inv r Hreach) as Hinv.
  unfold lifecycle_inv in Hinv.
  split; intros Hs.
  - assert (Hr : received r = true).
    { rewrite Hs in Hinv. cbn in Hinv. destruct (received r); [reflexivity|].
      rewrite andb_false_r in Hinv. discriminate Hinv. }
    destruct (later_frozen r r' Hl Hr) as (_ & Hrtp & _). congruence.
  - assert (Hr : received r = true).
    { rewrite Hs in Hinv. destruct (rtpReadStream r); cbn in Hinv;
        [|discriminate Hinv].
      destruct (received r); [reflexivity|].
      rewrite andb_false_r in Hinv. discriminate Hinv. }
    destruct (later_frozen r r' Hl Hr) as (_ & _ & Hrtcp). congruence.
Qed.

(** X5. [Read], [readRTP] and [Track] never write the receiver, whatever
    they return and also when they wait or panic; [Track] calls no
    collaborator either. *)
Theorem reads_leave_receiver_unchanged (r : RTPReceiver) (b : Buffer)
    (pick : Pick) (w : W) :
  after (Read b pick) r w = r
  /\ after (readRTP b pick) r w = r
  /\ call RTPReceiver_Track r w = (Returns (track r), untouched r w).
Proof. run_method; auto. Qed.

Lemma Receive_keeps_closed (r : RTPReceiver) (p : RTPReceiveParameters) (w : W) :
  closed (after (Receive p) r w) = closed r.
Proof. run_method; auto. Qed.

(** X6. [Receive] always returns: it never waits and never closes a channel
    that is already closed; and it never looks at or writes [closed]: on a
    receiver with [closed] set either way it does the same thing. *)
Theorem Receive_ignores_teardown (r : RTPReceiver) (p : RTPReceiveParameters)
    (w : W) (c : bool) :
  (exists e, fst (call (Receive p) r w) = Returns e)
  /\ closed (after (Receive p) r w) = closed r
  /\ call (Receive p) (set_closed c r) w
     = (fst (call (Receive p) r w),
        {| self := set_closed c (after (Receive p) r w);
           world := world (snd (call (Receive p) r w));
           trace := trace (snd (call (Receive p) r w)) |}).
Proof. run_method; repeat split; eauto. Qed.

(** *** What a call did, read off what it returned *)

Lemma Receive_nil_stores (r : RTPReceiver) (p : RTPReceiveParameters) (w : W) :
  fst (call (Receive p) r w) = Returns None ->
  received r = false
  /\ exists m c,
       rtpReadStream (after (Receive p) r w) = Some m
       /\ rtcpReadStream (after (Receive p) r w) = Some c.
Proof. run_method; intros; split; eauto. Qed.

(** X7. A [Receive] that returns nil (from an open gate) has made exactly
    four calls to the collaborators, in this order: the SRTP session of the
    receiver's transport, a read stream on it, the SRTCP session, a read
    stream on it, both streams for the SSRC of the parameters and each call
    on the state the previous one left; the media reader wraps the first
    stream and the control reader the second. *)
Theorem Receive_success_shape (r : RTPReceiver) (p : RTPReceiveParameters) (w : W) :
  fst (call (Receive p) r w) = Returns None ->
  exists s1 st1 s2 st2,
    let t := transport r in
    let ssrc := SSRC (encodings p) in
    let w1 := snd (getSRTPSession t w) in
    let w2 := snd (OpenReadStream s1 ssrc w1) in
    let w3 := snd (getSRTCPSession t w2) in
    fst (getSRTPSession t w) = inr s1
    /\ fst (OpenReadStream s1 ssrc w1) = inr st1
    /\ fst (getSRTCPSession t w2) = inr s2
    /\ fst (OpenReadStream s2 ssrc w3) = inr st2
    /\ world (snd (call (Receive p) r w)) = snd (OpenReadStream s2 ssrc w3)
    /\ trace (snd (call (Receive p) r w))
       = [EvCloseChan GateReceived;
          EvGetSRTPSession t; EvOpenReadStream s1 ssrc;
          EvGetSRTCPSession t; EvOpenReadStream s2 ssrc;
          EvNewLossy st1; EvNewLossy st2]
    /\ rtpReadStream (after (Receive p) r w) = Some {| nextReader := st1 |}
    /\ rtcpReadStream (after (Receive p) r w) = Some {| nextReader := st2 |}.
Proof.
  unfold_methods. cbn.
  destruct (received r) eqn:Hr; cbn; [intros [=]|]. rewrite ?Hr; cbn.
  destruct (getSRTPSession (transport r) w) as [[e1|s1] w1] eqn:E1; cbn;
    [intros [=]|].
  destruct (OpenReadStream s1 (SSRC (encodings p)) w1) as [[e2|st1] w2] eqn:E2; cbn;
    [intros [=]|].
  destruct (getSRTCPSession (transport r) w2) as [[e3|s2] w3] eqn:E3; cbn;
    [intros [=]|].
  destruct (OpenReadStream s2 (SSRC (encodings p)) w3) as [[e4|st2] w4] eqn:E4; cbn;
    [intros [=]|].
  intros _. exists s1, st1, s2, st2. cbn.
  rewrite E2. cbn. rewrite E3. cbn. rewrite E4. cbn.
  repeat split; reflexivity.
Qed.

(** X8. A [Receive] that passes the gate and returns an error returns the
    error of the first collaborator call that failed, unchanged, and stops
    there: no later collaborator is called, no reader is built and the
    reader fields are left as they were. *)
Theorem Receive_failure_shape (r : RTPReceiver) (p : RTPReceiveParameters)
    (w : W) (e : error) :
  received r = false ->
  fst (call (Receive p) r w) = Returns (Some e) ->
  let t := transport r in
  let ssrc := SSRC (encodings p) in
  let w1 := snd (getSRTPSession t w) in
  let m := snd (call (Receive p) r w) in
  rtpReadStream (self m) = rtpReadStream r
  /\ rtcpReadStream (self m) = rtcpReadStream r
  /\ (forall st, ~ In (EvNewLossy st) (trace m))
  /\ ((fst (getSRTPSession t w) = inl e
       /\ trace m = [EvCloseChan GateReceived; EvGetSRTPSession t])
      \/ (exists s1,
            fst (getSRTPSession t w) = inr s1
            /\ fst (OpenReadStream s1 ssrc w1) = inl e
            /\ trace m = [EvCloseChan GateReceived; EvGetSRTPSession t;
                          EvOpenReadStream s1 ssrc])
      \/ (exists s1 st1,
            let w2 := snd (OpenReadStream s1 ssrc w1) in
            fst (getSRTPSession t w) = inr s1
            /\ fst (OpenReadStream s1 ssrc w1) = inr st1
            /\ fst (getSRTCPSession t w2) = inl e
            /\ trace m = [EvCloseChan GateReceived; EvGetSRTPSession t;
                          EvOpenReadStream s1 ssrc; EvGetSRTCPSession t])
      \/ (exists s1 st1 s2,
            let w2 := snd (OpenReadStream s1 ssrc w1) in
            let w3 := snd (getSRTCPSession t w2) in
            fst (getSRTPSession t w) = inr s1
            /\ fst (OpenReadStream s1 ssrc w1) = inr st1
            /\ fst (getSRTCPSession t w2) = inr s2
            /\ fst (OpenReadStream s2 ssrc w3) = inl e
            /\ trace m = [EvCloseChan GateReceived; EvGetSRTPSession t;
                          EvOpenReadStream s1 ssrc; EvGetSRTCPSession t;
                          EvOpenReadStream s2 ssrc])).
Proof.
  intros Hopen. unfold_methods. cbn. rewrite Hopen. cbn. rewrite ?Hopen. cbn.
  destruct (getSRTPSession (transport r) w) as [[e1|s1] w1] eqn:E1; cbn.
  { intros [= ->]. repeat split; try (intros st Hin; cbn in Hin; intuition discriminate).
    left. split; reflexivity. }
  destruct (OpenReadStream s1 (SSRC (encodings p)) w1) as [[e2|st1] w2] eqn:E2; cbn.
  { intros [= ->]. repeat split; try (intros st Hin; cbn in Hin; intuition discriminate).
    right; left. exists s1. rewrite E2. repeat split; reflexivity. }
  destruct (getSRTCPSession (transport r) w2) as [[e3|s2] w3] eqn:E3; cbn.
  { intros [= ->]. repeat split; try (intros st Hin; cbn in Hin; intuition discriminate).
    right; right; left. exists s1, st1. cbn. rewrite E2. cbn. rewrite E3.
    repeat split; reflexivity. }
  destruct (OpenReadStream s2 (SSRC (encodings p)) w3) as [[e4|st2] w4] eqn:E4; cbn.
  { intros [= ->]. repeat split; try (intros st Hin; cbn in Hin; intuition discriminate).
    right; right; right. exists s1, st1, s2. cbn. rewrite E2. cbn. rewrite E3. cbn.
    rewrite E4. repeat split; reflexivity. }
  intros [=].
Qed.

(** X9. [Receive] does not look at [closed], so it still activates a
    receiver that was stopped before any activation; the readers it then
    stores stay stored and are never closed: every later [Stop] returns nil
    at once without calling a collaborator. *)
Theorem Receive_after_Stop_is_never_closed (r : RTPReceiver)
    (p : RTPReceiveParameters) (w : W) (r' : RTPReceiver) (w' : W) :
  closed r = true ->
  fst (call (Receive p) r w) = Returns None ->
  later (after (Receive p) r w) r' ->
  present (rtpReadStream r') = true
  /\ present (rtcpReadStream r') = true
  /\ call Stop r' w' = (Returns None, untouched r' w').
Proof.
  intros Hc Hok Hl.
  destruct (Receive_nil_stores r p w Hok) as (_ & m & c & Hm & Hcr).
  destruct (later_frozen _ _ Hl (Receive_received r p w)) as (_ & Hrtp & Hrtcp).
  rewrite Hrtp, Hrtcp, Hm, Hcr. split; [reflexivity|split; [reflexivity|]].
  apply Stop_spent. apply (later_gate_mono GateClosed _ _ Hl).
  change (closed (after (Receive p) r w) = true).
  rewrite (Receive_keeps_closed r p w). exact Hc.
Qed.

(** X10. [Stop] returns nil exactly when it leaves [closed] closed: after
    a [Stop] that returned an error, or that did not return, the teardown
    gate is still open. *)
Theorem Stop_nil_iff_closed (r : RTPReceiver) (w : W) :
  closed (after Stop r w) = true <-> fst (call Stop r w) = Returns None.
Proof. run_method; split; intros; congruence. Qed.

(** X11. [Stop] writes nothing but [closed]: the receiver it leaves is the
    one it found, with at most [closed] set; and it calls nothing but the
    [close] of the receiver's own stored readers. *)
Theorem Stop_only_closes (r : RTPReceiver) (w : W) :
  (after Stop r w = r \/ after Stop r w = set_closed true r)
  /\ forall ev, In ev (trace (snd (call Stop r w))) ->
       ev = EvCloseChan GateClosed
       \/ exists l, ev = EvLossyClose l
                    /\ (rtcpReadStream r = Some l \/ rtpReadStream r = Some l).
Proof.
  split.
  - run_method; auto.
  - intros ev. run_method; intros Hin;
      repeat (destruct Hin as [<- | Hin]; eauto); destruct Hin.
Qed.

(** X12. After a [Receive] that returned nil, whatever is called in
    between, both readers are stored and no method panics on a nil reader
    or waits on the channels: [Stop] returns, and a read returns either
    the stopped error or what the stored reader answers. *)
Theorem activated_receiver_is_served (r : RTPReceiver) (p : RTPReceiveParameters)
    (w : W) (r' : RTPReceiver) (b : Buffer) (pick : Pick) (w' : W) :
  fst (call (Receive p) r w) = Returns None ->
  later (after (Receive p) r w) r' ->
  exists m c,
    rtpReadStream r' = Some m /\ rtcpReadStream r' = Some c
    /\ (exists e, fst (call Stop r' w') = Returns e)
    /\ (fst (call (Read b pick) r' w') = Returns (0%Z, Some ErrStopped)
        \/ fst (call (Read b pick) r' w') = Returns (fst (lossy_read c b w')))
    /\ (fst (call (readRTP b pick) r' w') = Returns (0%Z, Some ErrStopped)
        \/ fst (call (readRTP b pick) r' w') = Returns (fst (lossy_read m b w'))).
Proof.
  intros Hok Hl.
  destruct (Receive_nil_stores r p w Hok) as (_ & m & c & Hm & Hc).
  destruct (later_frozen _ _ Hl (Receive_received r p w)) as (_ & Hrtp & Hrtcp).
  rewrite Hm in Hrtp. rewrite Hc in Hrtcp.
  assert (Hr : received r' = true).
  { apply (later_gate_mono GateReceived _ _ Hl), Receive_received. }
  exists m, c. split; [assumption|split; [assumption|]].
  unfold_methods. cbn. rewrite Hr, Hrtp, Hrtcp. cbn.
  destruct (closed r') eqn:Hcl; cbn.
  - split; [eauto|]. destruct pick; cbn;
      destruct (lossy_read c b w'), (lossy_read m b w'); cbn; auto.
  - destruct (lossy_read c b w') as [rc wc], (lossy_read m b w') as [rm wm]; cbn.
    split; [|auto].
    destruct (lossy_close c w') as [[e1|] w1]; cbn; [eauto|].
    destruct (lossy_close m w1) as [[e2|] w2]; cbn; [eauto|].
    rewrite Hcl. cbn. eauto.
Qed.

End Properties.

Section ControlPacketProperties.

Context {W Packet : Type} `{Collaborators W} `{PacketCodec W Packet}.

Ltac unfold_reads :=
  unfold after, call, untouched, ReadRTCP, Read, readRTP, RTPReceiver_Track,
    lossyReadCloser_read, bind, ret, getr, extern, panic, block, select2,
    ErrStopped in *; cbn in *.

(** X13. [NewRTPReceiver] fails exactly on a nil transport, with the error
    "DTLSTransport must not be nil"; the receiver it returns otherwise
    holds the given kind, transport and API, has no stream handle, and
    makes every read ([Read], [readRTP], [ReadRTCP]) wait, calling
    nothing, until one of its channels is closed. *)
Theorem NewRTPReceiver_gives_a_waiting_receiver (addr : ptr) (a : option API)
    (k : RTPCodecType) (t : option DTLSTransport) :
  (forall e, NewRTPReceiver addr a k t = inl e ->
     t = None /\ e = Errorf "DTLSTransport must not be nil")
  /\ (forall r, NewRTPReceiver addr a k t = inr r ->
        t = Some (transport r) /\ kind r = k /\ api r = a /\ this r = addr
        /\ forall b pick (w : W),
             call RTPReceiver_Track r w = (Returns None, untouched r w)
             /\ call (Read b pick) r w = (Blocks, untouched r w)
             /\ call (readRTP b pick) r w = (Blocks, untouched r w)
             /\ call (ReadRTCP b pick) r w = (Blocks, untouched r w)).
Proof.
  destruct t as [t|]; cbn; split.
  - intros e [=].
  - intros r [= <-]. cbn. repeat split.
  - intros e [= <-]. split; reflexivity.
  - intros r [=].
Qed.

(** X14. [ReadRTCP] never writes the receiver; when the underlying [Read]
    returns an error it returns a nil packet with that same error and
    parses nothing, so on a receiver with only [closed] fired it returns
    the stopped error; when the [Read] returns [n] bytes and no error, the
    result is exactly the parse of the first [n] bytes of the buffer. *)
Theorem ReadRTCP_follows_Read (r : RTPReceiver) (b : Buffer) (pick : Pick) (w : W) :
  after (ReadRTCP b pick) r w = r
  /\ (forall n e,
        fst (call (Read b pick) r w) = Returns (n, Some e) ->
        call (ReadRTCP b pick) r w
        = (Returns (None, Some e), snd (call (Read b pick) r w)))
  /\ (closed r = true -> received r = false ->
        call (ReadRTCP b pick) r w = (Returns (None, Some ErrStopped), untouched r w))
  /\ (forall n,
        fst (call (Read b pick) r w) = Returns (n, None) ->
        call (ReadRTCP b pick) r w
        = (Unmarshal_prefix b n (world (snd (call (Read b pick) r w))),
           snd (call (Read b pick) r w))).
Proof.
  unfold_reads.
  destruct (closed r), (received r), pick, (rtcpReadStream r) as [l|]; cbn;
    try destruct (lossy_read l b w) as [[n0 [e0|]] w0]; cbn;
    repeat split; try reflexivity;
    try (intros n e [=]; subst; reflexivity);
    try (intros n [=]; subst; reflexivity);
    try discriminate.
Qed.

End ControlPacketProperties.

(** ** The properties on scripted runs *)

Import Scripted.

Lemma fresh_reachable : reachable fresh.
Proof.
  exists 100, (Some 8), RTPCodecTypeVideo, (Some 9), fresh.
  split; [reflexivity|apply later_now].
Qed.

Lemma activated_reachable : reachable activated.
Proof.
  exists 100, (Some 8), RTPCodecTypeVideo, (Some 9), fresh.
  split; [reflexivity|].
  exact (later_call fresh fresh (CallReceive params) healthy (later_now fresh)).
Qed.

Lemma half_activated_reachable : reachable half_activated.
Proof.
  exists 100, (Some 8), RTPCodecTypeVideo, (Some 9), fresh.
  split; [reflexivity|].
  exact (later_call fresh fresh (CallReceive params) no_stream (later_now fresh)).
Qed.

(** C1 on a run: the first [Receive] fails for want of a session, a read
    follows, and the second [Receive] is refused. *)
Lemma Receive_one_shot_witness :
  later (after (Receive params) fresh no_session)
        (step (CallRead [] PickClosed) half_activated healthy)
  /\ call (Receive params) (step (CallRead [] PickClosed) half_activated healthy) healthy
     = (Returns (Some ErrAlreadyReceived),
        untouched (step (CallRead [] PickClosed) half_activated healthy) healthy).
Proof.
  assert (Hl : later (after (Receive params) fresh no_session)
                     (step (CallRead [] PickClosed) half_activated healthy)).
  { exact (later_call _ _ (CallRead [] PickClosed) healthy (later_now half_activated)). }
  split; [exact Hl|].
  exact (Receive_one_shot fresh params no_session _ params healthy Hl).
Defined.

(** C2 on a run: the stream does not open, yet the gate was closed first
    and the next [Receive] is refused. *)
Lemma Receive_closes_gate_first_witness :
  received (after (Receive params) fresh no_stream) = true
  /\ (exists rest,
        trace (snd (call (Receive params) fresh no_stream))
        = EvCloseChan GateReceived :: rest)
  /\ call (Receive params) half_activated healthy
     = (Returns (Some ErrAlreadyReceived), untouched half_activated healthy).
Proof.
  destruct (Receive_closes_gate_first fresh params no_stream) as (H1 & H2 & H3).
  split; [exact H1|split].
  - apply H2. reflexivity.
  - apply (H3 half_activated (later_now half_activated)).
Defined.

(** C3 fails on the code: the [Receive] whose stream does not open leaves
    a reachable receiver with the stream handle set and both readers
    absent. *)
Lemma handle_without_readers :
  reachable half_activated
  /\ after (Receive params) fresh no_stream = half_activated
  /\ present (track half_activated) = true
  /\ present (rtpReadStream half_activated) = false
  /\ present (rtcpReadStream half_activated) = false
  /\ all_or_none half_activated = false.
Proof.
  split; [exact half_activated_reachable|repeat split].
Qed.

Lemma handle_and_readers_invariant_witness :
  reachable half_activated
  /\ lifecycle_inv half_activated = true
  /\ (present (rtpReadStream (after (Receive params) fresh no_stream)) = true
      <-> fst (call (Receive params) fresh no_stream) = Returns None).
Proof.
  split; [exact half_activated_reachable|split].
  - exact (proj1 (handle_and_readers_invariant half_activated half_activated_reachable)).
  - destruct (proj2 (handle_and_readers_invariant fresh fresh_reachable)
                params no_stream eq_refl) as (_ & _ & Hrtp & _).
    exact Hrtp.
Defined.

(** C4, refuted by a defect of the code: a [Receive] that fails on the
    session closes [received] and returns before any reader is stored; on
    the receiver it leaves, reachable and with [received] fired and [closed]
    not, every [Read] and every [readRTP] calls [read] on a nil reader and
    panics instead of returning a reader's byte count and error. *)
Theorem read_after_failed_Receive_panics :
  reachable half_activated
  /\ call (Receive params) fresh no_session
     = (Returns (Some (Errorf "the DTLS transport has not started yet")),
        {| self := half_activated; world := no_session;
           trace := [EvCloseChan GateReceived; EvGetSRTPSession 9] |})
  /\ received half_activated = true
  /\ closed half_activated = false
  /\ rtcpReadStream half_activated = None
  /\ rtpReadStream half_activated = None
  /\ forall (b : Buffer) (pick : Pick) (w : Script),
       call (Read b pick) half_activated w
       = (Panics, untouched half_activated w)
       /\ call (readRTP b pick) half_activated w
          = (Panics, untouched half_activated w).
Proof.
  split; [exact half_activated_reachable|].
  do 5 (split; [reflexivity|]).
  intros b pick w. split; reflexivity.
Qed.

(** Reads with one signal fired, on two runs: a receiver stopped before
    any activation, and an activated receiver. *)
Lemma read_follows_the_fired_signal_witness :
  call (Read [] PickReceived) (after Stop fresh healthy) healthy
  = (Returns (0%Z, Some ErrStopped), untouched (after Stop fresh healthy) healthy)
  /\ call (readRTP [] PickClosed) activated rtcp_close_fails
     = (Returns (7%Z, None),
        {| self := activated; world := rtcp_close_fails;
           trace := [EvLossyRead rtp_reader] |}).
Proof.
  split.
  - exact (proj1 (proj1 (read_follows_the_fired_signal (after Stop fresh healthy)
                           [] PickReceived healthy) eq_refl eq_refl)).
  - destruct (proj2 (read_follows_the_fired_signal activated [] PickClosed
                       rtcp_close_fails) eq_refl eq_refl) as (_ & _ & _ & Hrtp).
    exact (Hrtp rtp_reader eq_refl).
Defined.

(** C5 fails on the code: on an activated receiver that was then stopped
    both channels are closed, and a read whose [select] proceeds with the
    [received] case returns what the reader answers, not "RTPSender has
    been stopped". *)
Lemma Read_after_Stop_may_delegate :
  reachable activated
  /\ fst (call Stop activated healthy) = Returns None
  /\ closed (after Stop activated healthy) = true
  /\ received (after Stop activated healthy) = true
  /\ call (Read [] PickReceived) (after Stop activated healthy) readers_closed
     = (Returns (0%Z, Some (Errorf "lossyReadCloser is closed")),
        {| self := after Stop activated healthy; world := readers_closed;
           trace := [EvLossyRead rtcp_reader] |})
  /\ fst (call (Read [] PickReceived) (after Stop activated healthy) readers_closed)
     <> Returns (0%Z, Some ErrStopped)
  /\ fst (call (readRTP [] PickReceived) (after Stop activated healthy) readers_closed)
     <> Returns (0%Z, Some ErrStopped).
Proof.
  split; [exact activated_reachable|].
  repeat split; cbv; discriminate.
Qed.

Lemma read_after_Stop_witness :
  fst (call Stop activated healthy) = Returns None
  /\ later (after Stop activated healthy) (after Stop activated healthy)
  /\ call (Read [] PickClosed) (after Stop activated healthy) healthy
     = (Returns (0%Z, Some ErrStopped), untouched (after Stop activated healthy) healthy).
Proof.
  assert (Hok : fst (call Stop activated healthy) = Returns None) by reflexivity.
  assert (Hl : later (after Stop activated healthy) (after Stop activated healthy))
    by apply later_now.
  split; [exact Hok|split; [exact Hl|]].
  destruct (read_after_Stop activated healthy (after Stop activated healthy)
              [] PickClosed healthy Hok Hl) as (_ & _ & _ & Hstopped & _).
  exact (proj1 (Hstopped (or_intror eq_refl))).
Defined.

(** C6 on a run: activation, [Stop], a read, [Stop] again. *)
Lemma Stop_idempotent_witness :
  fst (call Stop activated healthy) = Returns None
  /\ later (after Stop activated healthy)
           (step (CallReadRTP [] PickReceived) (after Stop activated healthy) healthy)
  /\ call Stop (step (CallReadRTP [] PickReceived) (after Stop activated healthy) healthy)
          rtcp_close_fails
     = (Returns None,
        untouched (step (CallReadRTP [] PickReceived) (after Stop activated healthy) healthy)
                  rtcp_close_fails).
Proof.
  assert (Hl : later (after Stop activated healthy)
                 (step (CallReadRTP [] PickReceived) (after Stop activated healthy) healthy)).
  { apply later_call, later_now. }
  split; [reflexivity|split; [exact Hl|]].
  exact (Stop_idempotent activated healthy _ rtcp_close_fails eq_refl Hl).
Defined.

(** C7 fails on the code: when the close of the control reader fails,
    [Stop] returns at once and the close of the media reader is not
    attempted. *)
Lemma Stop_skips_media_close :
  reachable activated
  /\ received activated = true
  /\ rtcpReadStream activated = Some rtcp_reader
  /\ rtpReadStream activated = Some rtp_reader
  /\ call Stop activated rtcp_close_fails
     = (Returns (Some (Errorf "close failed")),
        {| self := activated; world := rtcp_close_fails;
           trace := [EvLossyClose rtcp_reader] |})
  /\ ~ In (EvLossyClose rtp_reader) (trace (snd (call Stop activated rtcp_close_fails))).
Proof.
  split; [exact activated_reachable|].
  repeat split. intros [Hin|[]]. discriminate Hin.
Qed.

Lemma Stop_closes_control_then_media_witness :
  received activated = true /\ closed activated = false
  /\ rtcpReadStream activated = Some rtcp_reader
  /\ rtpReadStream activated = Some rtp_reader
  /\ call Stop activated healthy
     = (Returns None,
        {| self := set_closed true activated; world := healthy;
           trace := [EvLossyClose rtcp_reader; EvLossyClose rtp_reader;
                     EvCloseChan GateClosed] |})
  /\ after Stop activated rtcp_close_fails = activated.
Proof.
  do 4 (split; [reflexivity|]).
  destruct (Stop_closes_control_then_media activated healthy rtcp_reader rtp_reader
              eq_refl eq_refl eq_refl eq_refl) as (_ & _ & Hok & _).
  destruct (Stop_closes_control_then_media activated rtcp_close_fails rtcp_reader rtp_reader
              eq_refl eq_refl eq_refl eq_refl) as (_ & _ & _ & Hretry).
  split.
  - exact (Hok healthy healthy eq_refl eq_refl).
  - exact (proj1 (Hretry (Errorf "close failed") eq_refl)).
Defined.

Lemma Stop_before_activation_witness :
  received fresh = false
  /\ fst (call Stop fresh healthy) = Returns None
  /\ closed (after Stop fresh healthy) = true
  /\ trace (snd (call Stop fresh healthy)) = [EvCloseChan GateClosed].
Proof.
  split; [reflexivity|].
  destruct (Stop_before_activation fresh healthy eq_refl) as (H1 & H2 & _ & _ & _ & H6).
  split; [exact H1|split; [exact H2|exact H6]].
Defined.

Lemma Track_after_failed_Receive_witness :
  received fresh = false
  /\ fst (call (Receive params) fresh no_session)
     = Returns (Some (Errorf "the DTLS transport has not started yet"))
  /\ fst (call RTPReceiver_Track (after (Receive params) fresh no_session) healthy)
     = Returns (Some {| Track_kind := RTPCodecTypeVideo; Track_ssrc := 12345%N;
                        Track_receiver := 100 |}).
Proof.
  split; [reflexivity|split; [reflexivity|]].
  exact (Track_after_failed_Receive fresh params no_session
           (Errorf "the DTLS transport has not started yet") healthy eq_refl eq_refl).
Defined.


(** ** The further properties on scripted runs *)

(** [fresh] after a [Stop]: stopped before any activation. *)
Lemma gates_never_reopen_witness :
  later (after Stop fresh healthy)
        (step (CallReceive params) (after Stop fresh healthy) healthy)
  /\ closed (step (CallReceive params) (after Stop fresh healthy) healthy) = true.
Proof.
  assert (Hl : later (after Stop fresh healthy)
                 (step (CallReceive params) (after Stop fresh healthy) healthy)).
  { apply later_call, later_now. }
  split; [exact Hl|].
  exact (proj1 (gates_never_reopen _ _ Hl) eq_refl).
Defined.

Lemma identity_fields_immutable_witness :
  later fresh (step CallStop activated rtcp_close_fails)
  /\ this (step CallStop activated rtcp_close_fails) = 100
  /\ kind (step CallStop activated rtcp_close_fails) = RTPCodecTypeVideo
  /\ transport (step CallStop activated rtcp_close_fails) = 9
  /\ api (step CallStop activated rtcp_close_fails) = Some 8.
Proof.
  assert (Hl : later fresh (step CallStop activated rtcp_close_fails)).
  { apply later_call.
    exact (later_call fresh fresh (CallReceive params) healthy (later_now fresh)). }
  split; [exact Hl|].
  exact (identity_fields_immutable fresh _ Hl).
Defined.

Lemma Track_handle_stable_witness :
  reachable half_activated
  /\ later half_activated (step (CallReceive params) half_activated healthy)
  /\ fst (call RTPReceiver_Track (step (CallReceive params) half_activated healthy) healthy)
     = Returns (Some {| Track_kind := RTPCodecTypeVideo; Track_ssrc := 12345%N;
                        Track_receiver := 100 |}).
Proof.
  assert (Hl : later half_activated (step (CallReceive params) half_activated healthy)).
  { apply later_call, later_now. }
  split; [exact half_activated_reachable|split; [exact Hl|]].
  destruct (Track_handle_stable half_activated _ _ healthy
              half_activated_reachable eq_refl Hl) as (_ & _ & Htrack).
  exact Htrack.
Defined.

Lemma readers_stable_witness :
  reachable activated
  /\ later activated (step CallStop activated healthy)
  /\ rtpReadStream (step CallStop activated healthy) = Some rtp_reader
  /\ rtcpReadStream (step CallStop activated healthy) = Some rtcp_reader.
Proof.
  assert (Hl : later activated (step CallStop activated healthy)).
  { apply later_call, later_now. }
  split; [exact activated_reachable|split; [exact Hl|]].
  destruct (readers_stable activated _ rtp_reader rtcp_reader activated_reachable Hl)
    as (Hrtp & Hrtcp).
  split; [exact (Hrtp eq_refl)|exact (Hrtcp eq_refl)].
Defined.

Lemma Receive_success_shape_witness :
  fst (call (Receive params) fresh healthy) = Returns None
  /\ exists s1 st1 s2 st2,
       trace (snd (call (Receive params) fresh healthy))
       = [EvCloseChan GateReceived;
          EvGetSRTPSession 9; EvOpenReadStream s1 12345;
          EvGetSRTCPSession 9; EvOpenReadStream s2 12345;
          EvNewLossy st1; EvNewLossy st2]
       /\ rtpReadStream (after (Receive params) fresh healthy)
          = Some {| nextReader := st1 |}
       /\ rtcpReadStream (after (Receive params) fresh healthy)
          = Some {| nextReader := st2 |}.
Proof.
  assert (Hok : fst (call (Receive params) fresh healthy) = Returns None)
    by reflexivity.
  split; [exact Hok|].
  destruct (Receive_success_shape fresh params healthy Hok)
    as (s1 & st1 & s2 & st2 & _ & _ & _ & _ & _ & Htrace & Hrtp & Hrtcp).
  exists s1, st1, s2, st2. split; [exact Htrace|split; [exact Hrtp|exact Hrtcp]].
Defined.

Lemma Receive_failure_shape_witness :
  received fresh = false
  /\ fst (call (Receive params) fresh no_stream)
     = Returns (Some (Errorf "failed to open ReadStream"))
  /\ rtpReadStream (after (Receive params) fresh no_stream) = None
  /\ forall st, ~ In (EvNewLossy st) (trace (snd (call (Receive params) fresh no_stream))).
Proof.
  assert (Herr : fst (call (Receive params) fresh no_stream)
                 = Returns (Some (Errorf "failed to open ReadStream")))
    by reflexivity.
  split; [reflexivity|split; [exact Herr|]].
  destruct (Receive_failure_shape fresh params no_stream
              (Errorf "failed to open ReadStream") eq_refl Herr)
    as (Hrtp & _ & Hnew & _).
  split; [exact Hrtp|exact Hnew].
Defined.

Lemma Receive_after_Stop_is_never_closed_witness :
  closed (after Stop fresh healthy) = true
  /\ fst (call (Receive params) (after Stop fresh healthy) healthy) = Returns None
  /\ present (rtpReadStream (after (Receive params) (after Stop fresh healthy) healthy))
     = true
  /\ call Stop (after (Receive params) (after Stop fresh healthy) healthy) rtcp_close_fails
     = (Returns None,
        untouched (after (Receive params) (after Stop fresh healthy) healthy)
                  rtcp_close_fails).
Proof.
  assert (Hc : closed (after Stop fresh healthy) = true) by reflexivity.
  assert (Hok : fst (call (Receive params) (after Stop fresh healthy) healthy)
                = Returns None) by reflexivity.
  split; [exact Hc|split; [exact Hok|]].
  destruct (Receive_after_Stop_is_never_closed (after Stop fresh healthy) params healthy
              _ rtcp_close_fails Hc Hok (later_now _))
    as (Hrtp & _ & Hstop).
  split; [exact Hrtp|exact Hstop].
Defined.

Lemma Stop_only_closes_witness :
  In (EvLossyClose rtp_reader) (trace (snd (call Stop activated healthy)))
  /\ (EvLossyClose rtp_reader = EvCloseChan GateClosed
      \/ exists l, EvLossyClose rtp_reader = EvLossyClose l
                   /\ (rtcpReadStream activated = Some l
                       \/ rtpReadStream activated = Some l)).
Proof.
  assert (Hin : In (EvLossyClose rtp_reader) (trace (snd (call Stop activated healthy)))).
  { right; left; reflexivity. }
  split; [exact Hin|].
  exact (proj2 (Stop_only_closes activated healthy) _ Hin).
Defined.

Lemma activated_receiver_is_served_witness :
  fst (call (Receive params) fresh healthy) = Returns None
  /\ later (after (Receive params) fresh healthy)
           (step CallStop activated rtcp_close_fails)
  /\ exists m c,
       rtpReadStream (step CallStop activated rtcp_close_fails) = Some m
       /\ rtcpReadStream (step CallStop activated rtcp_close_fails) = Some c
       /\ exists e,
            fst (call Stop (step CallStop activated rtcp_close_fails) healthy)
            = Returns e.
Proof.
  assert (Hl : later (after (Receive params) fresh healthy)
                 (step CallStop activated rtcp_close_fails)).
  { exact (later_call _ activated CallStop rtcp_close_fails (later_now activated)). }
  assert (Hok : fst (call (Receive params) fresh healthy) = Returns None)
    by reflexivity.
  split; [exact Hok|split; [exact Hl|]].
  destruct (activated_receiver_is_served fresh params healthy _ [] PickClosed healthy
              Hok Hl) as (m & c & Hm & Hc & Hstop & _).
  exists m, c. split; [exact Hm|split; [exact Hc|exact Hstop]].
Defined.

Lemma NewRTPReceiver_gives_a_waiting_receiver_witness :
  NewRTPReceiver 100 (Some 8) RTPCodecTypeVideo (Some 9) = inr fresh
  /\ call (ReadRTCP [] PickReceived) fresh healthy = (Blocks, untouched fresh healthy)
  /\ NewRTPReceiver 100 (Some 8) RTPCodecTypeVideo None
     = inl (Errorf "DTLSTransport must not be nil").
Proof.
  split; [reflexivity|split].
  - destruct (proj2 (NewRTPReceiver_gives_a_waiting_receiver (W := Script) (Packet := nat)
                       100 (Some 8) RTPCodecTypeVideo (Some 9)) fresh eq_refl)
      as (_ & _ & _ & _ & Hwait).
    exact (proj2 (proj2 (proj2 (Hwait [] PickReceived healthy)))).
  - reflexivity.
Defined.

Lemma ReadRTCP_follows_Read_witness :
  fst (call (Read (repeat Byte.x00 8) PickClosed) activated healthy)
  = Returns (7%Z, None)
  /\ fst (call (ReadRTCP (repeat Byte.x00 8) PickClosed) activated healthy)
     = Returns (Some 7, None)
  /\ call (ReadRTCP [] PickReceived) (after Stop fresh healthy) healthy
     = (Returns (None, Some ErrStopped), untouched (after Stop fresh healthy) healthy)
  /\ fst (call (ReadRTCP [] PickReceived) (after Stop activated healthy) readers_closed)
     = Returns (None, Some (Errorf "lossyReadCloser is closed")).
Proof.
  split; [reflexivity|].
  destruct (ReadRTCP_follows_Read (Packet := nat) activated (repeat Byte.x00 8)
              PickClosed healthy) as (_ & _ & _ & Hparse).
  destruct (ReadRTCP_follows_Read (Packet := nat) (after Stop fresh healthy) []
              PickReceived healthy) as (_ & _ & Hstopped & _).
  destruct (ReadRTCP_follows_Read (Packet := nat) (after Stop activated healthy) []
              PickReceived readers_closed) as (_ & Herr & _ & _).
  split; [|split].
  - exact (f_equal fst (Hparse 7%Z eq_refl)).
  - exact (Hstopped eq_refl eq_refl).
  - exact (f_equal fst (Herr 0%Z (Errorf "lossyReadCloser is closed") eq_refl)).
Defined.
